(** * WealthTrack: valuation, aggregation, rebalancing and batch refresh

    A shallow embedding of the computation pipeline of the [App] component
    (position valuation, account aggregation, portfolio totals, rebalancing
    advice) and of the [syncAll] batch refresh, followed by the properties
    the specification states about them.

    Numbers.  The calculations are embedded twice.

    - Module [JS] takes a [number] to be an exact rational extended with
      [NaN] and the two infinities.  Every operation follows the
      IEEE/ECMAScript rules for the special values (division by zero,
      [Infinity - Infinity], comparisons with [NaN], falsiness of [0] and
      [NaN]); rounding to binary64, overflow and the sign of zero are not
      represented.  It carries the properties that no rounding can affect:
      which branch a guard takes, which default replaces a missing field,
      results that are [0] or a stored value, and everything about records,
      lists and the busy flag.

    - Module [Binary64] takes a [number] to be an IEEE 754 binary64 value
      with round-to-nearest, the arithmetic of the program itself.  It
      carries every figure that is the result of a multiplication, a
      division or a subtraction of decimal fractions. *)

From Stdlib Require Import ZArith QArith Qcanon Lia.
From Stdlib Require Import Floats.PrimFloat.
From stdpp Require Import base decidable option list numbers strings.

Local Open Scope Z_scope.

(* ================================================================== *)
(** ** JavaScript values *)

Module JS.

Inductive number : Type :=
| Fin (q : Qc)
| PosInf
| NegInf
| NaN.

(** Sign of a rational, as a [comparison] with zero. *)
Definition sgn (q : Qc) : comparison := Qccompare q (Q2Qc 0).

Definition inf_of_sign (c : comparison) : number :=
  match c with
  | Gt => PosInf
  | Lt => NegInf
  | Eq => NaN
  end.

Definition zero : number := Fin (Q2Qc 0).
Definition one : number := Fin (Q2Qc 1).
Definition hundred : number := Fin (Q2Qc 100).

(** Decimal literal [n / d], e.g. [frac 782 100] for [7.82]. *)
Definition frac (n : Z) (d : positive) : number := Fin (Q2Qc (n # d)).
Definition int (n : Z) : number := frac n 1.

Definition neg (a : number) : number :=
  match a with
  | Fin x => Fin (- x)%Qc
  | PosInf => NegInf
  | NegInf => PosInf
  | NaN => NaN
  end.

(** [a + b] *)
Definition add (a b : number) : number :=
  match a, b with
  | NaN, _ | _, NaN => NaN
  | Fin x, Fin y => Fin (x + y)%Qc
  | PosInf, NegInf | NegInf, PosInf => NaN
  | PosInf, _ | _, PosInf => PosInf
  | NegInf, _ | _, NegInf => NegInf
  end.

(** [a - b] *)
Definition sub (a b : number) : number := add a (neg b).

(** [a * b]: [0 * Infinity] is [NaN]. *)
Definition mul (a b : number) : number :=
  match a, b with
  | NaN, _ | _, NaN => NaN
  | Fin x, Fin y => Fin (x * y)%Qc
  | Fin x, PosInf | PosInf, Fin x => inf_of_sign (sgn x)
  | Fin x, NegInf | NegInf, Fin x => inf_of_sign (CompOpp (sgn x))
  | PosInf, PosInf | NegInf, NegInf => PosInf
  | PosInf, NegInf | NegInf, PosInf => NegInf
  end.

(** [a / b]: a finite number over zero is an infinity of its sign, [0 / 0]
    is [NaN], a finite number over an infinity is [0]. *)
Definition div (a b : number) : number :=
  match a, b with
  | NaN, _ | _, NaN => NaN
  | Fin x, Fin y =>
      match sgn y with
      | Eq => inf_of_sign (sgn x)
      | _ => Fin (x / y)%Qc
      end
  | Fin _, PosInf | Fin _, NegInf => zero
  | PosInf, Fin y => match sgn y with Lt => NegInf | _ => PosInf end
  | NegInf, Fin y => match sgn y with Lt => PosInf | _ => NegInf end
  | _, _ => NaN
  end.

(** [a > b]: false as soon as one side is [NaN]. *)
Definition gt (a b : number) : bool :=
  match a, b with
  | Fin x, Fin y => match Qccompare x y with Gt => true | _ => false end
  | PosInf, Fin _ | PosInf, NegInf | Fin _, NegInf => true
  | _, _ => false
  end.

(** ToBoolean on numbers: [0] and [NaN] are falsy. *)
Definition truthy (a : number) : bool :=
  match a with
  | Fin x => match sgn x with Eq => false | _ => true end
  | NaN => false
  | PosInf | NegInf => true
  end.

Definition is_finite (a : number) : bool :=
  match a with Fin _ => true | _ => false end.

(** A record field that should hold a number: it may be absent
    ([undefined]), [null], or a number ([NaN] included). *)
Inductive value : Type :=
| Undefined
| Null
| Num (n : number).

(** [v || d] with a numeric default [d]. *)
Definition or_default (v : value) (d : number) : number :=
  match v with
  | Num n => if truthy n then n else d
  | Undefined | Null => d
  end.

(** ToNumber, applied by [*] and [/] to their operands. *)
Definition to_number (v : value) : number :=
  match v with
  | Undefined => NaN
  | Null => zero
  | Num n => n
  end.

(** The field holds neither [Infinity] nor [-Infinity]. *)
Definition not_infinite (v : value) : bool :=
  match v with
  | Num PosInf | Num NegInf => false
  | _ => true
  end.

End JS.

Export JS.

(* ================================================================== *)
(** ** Data model (types.ts) *)

Module Investment.
Record t : Type := mk {
  id : Z;
  symbol : string;
  name : string;
  currency : string;
  currentPrice : value;
  exchangeRate : value;
  overrideShares : value;
  initialPurchasePrice : value;
  targetAllocation : value;
  lastUpdated : option Z;
  dataSource : option string
}.
End Investment.

Module AssetAccount.
Record t : Type := mk {
  id : Z;
  name : string;
  currency : string;
  amount : value;
  exchangeRate : value;
  autoFromInvestments : option bool
}.

(** Truthiness of the optional flag in [acc.autoFromInvestments ? _ : _]. *)
Definition isAuto (acc : t) : bool :=
  match autoFromInvestments acc with
  | Some true => true
  | _ => false
  end.
End AssetAccount.

Inductive BaseCurrency : Type := HKD | TWD.

(** One element of [invDetails]: the spread investment and the derived
    fields. *)
Record InvDetail : Type := mkInvDetail {
  inv : Investment.t;
  shares : number;
  buyPrice : number;
  costBase : number;
  valueBase : number;
  profitBase : number;
  profitPct : number
}.

Module ProcessedAccount.
Record t : Type := mk {
  acc : AssetAccount.t;
  amount : number;
  amountBase : number
}.
End ProcessedAccount.

(** One element of [rebalanceAdvice]. *)
Record Advice : Type := mkAdvice {
  detail : InvDetail;
  suggest : number;
  gap : number;
  currentPct : number
}.

(* ================================================================== *)
(** ** The calculations of [App] *)

Section Calculations.

(** The pieces of component state the calculations close over. *)
Variable baseCurrency : BaseCurrency.
Variable hkdTwdRate : number.
Variable monthlyBudget : number.
Variable investments : list Investment.t.
Variable accounts : list AssetAccount.t.

(** [toBase]: convert an HKD value to the base currency. *)
Definition toBase (hkdValue : number) : number :=
  match baseCurrency with
  | HKD => hkdValue
  | TWD => mul hkdValue hkdTwdRate
  end.

(** The local constants of the [invDetails] callback. *)
Definition inv_shares (i : Investment.t) : number :=
  or_default (Investment.overrideShares i) zero.
Definition inv_rateToHkd (i : Investment.t) : number :=
  or_default (Investment.exchangeRate i) one.
Definition inv_currentPrice (i : Investment.t) : number :=
  or_default (Investment.currentPrice i) zero.
Definition inv_buyPrice (i : Investment.t) : number :=
  or_default (Investment.initialPurchasePrice i) zero.

Definition valueHKD (i : Investment.t) : number :=
  mul (mul (inv_shares i) (inv_currentPrice i)) (inv_rateToHkd i).
Definition costHKD (i : Investment.t) : number :=
  mul (mul (inv_shares i) (inv_buyPrice i)) (inv_rateToHkd i).
Definition profitHKD (i : Investment.t) : number :=
  sub (valueHKD i) (costHKD i).

Definition invDetail (i : Investment.t) : InvDetail :=
  {| inv := i;
     shares := inv_shares i;
     buyPrice := inv_buyPrice i;
     costBase := toBase (costHKD i);
     valueBase := toBase (valueHKD i);
     profitBase := toBase (profitHKD i);
     profitPct :=
       if gt (costHKD i) zero
       then mul (div (profitHKD i) (costHKD i)) hundred
       else zero |}.

Definition invDetails : list InvDetail := map invDetail investments.

Definition totalInvBase : number :=
  foldl (fun s i => add s (valueBase i)) zero invDetails.

(** The local constants of the [processedAccounts] callback. *)
Definition acc_rateToHkd (a : AssetAccount.t) : number :=
  or_default (AssetAccount.exchangeRate a) one.
Definition totalInvHKD : number :=
  div totalInvBase (match baseCurrency with HKD => one | TWD => hkdTwdRate end).
Definition acc_amount (a : AssetAccount.t) : number :=
  if AssetAccount.isAuto a
  then div totalInvHKD (acc_rateToHkd a)
  else or_default (AssetAccount.amount a) zero.
Definition acc_amountHKD (a : AssetAccount.t) : number :=
  mul (acc_amount a) (acc_rateToHkd a).

Definition processAccount (a : AssetAccount.t) : ProcessedAccount.t :=
  {| ProcessedAccount.acc := a;
     ProcessedAccount.amount := acc_amount a;
     ProcessedAccount.amountBase := toBase (acc_amountHKD a) |}.

Definition processedAccounts : list ProcessedAccount.t :=
  map processAccount accounts.

Definition totalAssetsBase : number :=
  foldl (fun s a => add s (ProcessedAccount.amountBase a)) zero
    processedAccounts.

(** The figure shown on the liquid-cash card. *)
Definition liquidCashBase : number := sub totalAssetsBase totalInvBase.

Definition totalFutureValueBase : number :=
  add totalInvBase (toBase monthlyBudget).

(** The local constants of the [rebalanceAdvice] callback. *)
Definition adv_targetVal (d : InvDetail) : number :=
  mul (div (to_number (Investment.targetAllocation (inv d))) hundred)
    totalFutureValueBase.
Definition adv_priceHKD (d : InvDetail) : number :=
  mul (to_number (Investment.currentPrice (inv d)))
    (or_default (Investment.exchangeRate (inv d)) one).
Definition adv_priceBase (d : InvDetail) : number :=
  toBase (adv_priceHKD d).

Definition advise (d : InvDetail) : Advice :=
  let gap := sub (adv_targetVal d) (valueBase d) in
  {| detail := d;
     suggest :=
       if gt (adv_priceBase d) zero then div gap (adv_priceBase d) else zero;
     gap := gap;
     currentPct :=
       if gt totalInvBase zero
       then mul (div (valueBase d) totalInvBase) hundred
       else zero |}.


End Calculations.


(* ================================================================== *)
(** ** Vocabulary of the specification *)

(** A numeric field is missing or non-numeric. *)
Definition missing (v : value) : bool :=
  match v with
  | Undefined | Null | Num NaN => true
  | Num _ => false
  end.

(** The field with its data-model default [d] filled in. *)
Definition withDefault (d : number) (v : value) : value :=
  if missing v then Num d else v.




(** No numeric input of the position is an infinity. *)
Definition boundedInvestment (i : Investment.t) : bool :=
  not_infinite (Investment.overrideShares i)
  && not_infinite (Investment.currentPrice i)
  && not_infinite (Investment.initialPurchasePrice i)
  && not_infinite (Investment.exchangeRate i).

(** The rate by which [toBase] multiplies, when it is used, is a rational. *)
Definition finiteRate (baseCurrency : BaseCurrency) (hkdTwdRate : number) : bool :=
  match baseCurrency with
  | HKD => true
  | TWD => is_finite hkdTwdRate
  end.

(* ================================================================== *)
(** ** Batch refresh ([syncAll]) *)

Module PriceResult.
Record t : Type := mk {
  price : value;
  name : string;
  currency : string;
  sourceUrls : list string
}.
End PriceResult.

Module App.
Record state : Type := mk {
  investments : list Investment.t;
  hkdTwdRate : number;
  isUpdating : bool;
  sources : list string
}.
End App.

(** [Array.from(new Set(l))]: first occurrences, in order. *)
Definition dedupe (l : list string) : list string :=
  foldl (fun seen x => if decide (x ∈ seen) then seen else seen ++ [x]) [] l.

Section Refresh.

(** The market-data service as the batch observes it: the answer to the
    lookup issued at iteration [i] for a ticker ([None] is the service's
    [null]), the rate it reports, and the clock read at iteration [i]. *)
Variable fetchRealtimePrice : nat → string → option PriceResult.t.
Variable fetchHkdTwdRate : number.
Variable now : nat → Z.

(** The object literal assigned to [newInvestments[i]]. *)
Definition refreshed (old : Investment.t) (res : PriceResult.t) (t : Z)
  : Investment.t :=
  {| Investment.id := Investment.id old;
     Investment.symbol := Investment.symbol old;
     Investment.name := PriceResult.name res;
     Investment.currency := PriceResult.currency res;
     Investment.currentPrice := PriceResult.price res;
     Investment.exchangeRate := Investment.exchangeRate old;
     Investment.overrideShares := Investment.overrideShares old;
     Investment.initialPurchasePrice := Investment.initialPurchasePrice old;
     Investment.targetAllocation := Investment.targetAllocation old;
     Investment.lastUpdated := Some t;
     Investment.dataSource := Some "Google Search API"%string |}.

(** One iteration of the [for] loop on the copied array and the collected
    source links. *)
Definition syncStep (s : list Investment.t * list string) (i : nat)
  : list Investment.t * list string :=
  let '(newInvestments, allSources) := s in
  match newInvestments !! i with
  | Some old =>
      match fetchRealtimePrice i (Investment.symbol old) with
      | Some res =>
          (<[i := refreshed old res (now i)]> newInvestments,
           allSources ++ PriceResult.sourceUrls res)
      | None => s
      end
  | None => s
  end.

Definition syncLoop (investments : list Investment.t)
  : list Investment.t * list string :=
  foldl syncStep (investments, []) (seq 0 (length investments)).

(** The state once [syncAll] has run to completion. *)
Definition syncAll (st : App.state) : App.state :=
  let '(newInvestments, allSources) := syncLoop (App.investments st) in
  {| App.investments := newInvestments;
     App.hkdTwdRate := fetchHkdTwdRate;
     App.isUpdating := false;
     App.sources := dedupe allSources |}.

(** What the batch does to the position at index [i]. *)
Definition refreshOne (i : nat) (old : Investment.t) : Investment.t :=
  match fetchRealtimePrice i (Investment.symbol old) with
  | Some res => refreshed old res (now i)
  | None => old
  end.

End Refresh.

(** The source links the lookup of iteration [i] contributes. *)
Definition urlsAt (fetchRealtimePrice : nat → string → option PriceResult.t)
    (investments : list Investment.t) (i : nat) : list string :=
  match investments !! i with
  | Some old =>
      match fetchRealtimePrice i (Investment.symbol old) with
      | Some res => PriceResult.sourceUrls res
      | None => []
      end
  | None => []
  end.

(* ================================================================== *)
(** ** The busy flag and the two refresh buttons *)

Module Busy.

(** [isUpdating] together with the [syncAll] calls that have started and not
    yet finished; each is represented by the number of [await]s it still
    has to pass. *)
Record state : Type := mk {
  isUpdating : bool;
  inFlight : list nat
}.

Inductive event : Type :=
| ClickHeader            (* the button of the header, [disabled={isUpdating}] *)
| ClickNav               (* the button of the floating navigation *)
| Resume (k : nat).      (* the pending [await] of the k-th call resolves *)

Definition init : state := {| isUpdating := false; inFlight := [] |}.

(** [syncAll] up to its first [await]: the flag is raised and the call waits
    for the rate and then for one price per position. *)
Definition startSync (positions : nat) (st : state) : state :=
  {| isUpdating := true; inFlight := inFlight st ++ [S positions] |}.

(** An [await] of the k-th call resolves; after the last one the call
    lowers the flag and ends. *)
Definition resume (k : nat) (st : state) : state :=
  match inFlight st !! k with
  | Some (S (S n)) =>
      {| isUpdating := isUpdating st; inFlight := <[k := S n]> (inFlight st) |}
  | Some _ =>
      {| isUpdating := false; inFlight := delete k (inFlight st) |}
  | None => st
  end.

Definition step (positions : nat) (st : state) (e : event) : state :=
  match e with
  | ClickHeader => if isUpdating st then st else startSync positions st
  | ClickNav => startSync positions st
  | Resume k => resume k st
  end.

Definition run (positions : nat) (es : list event) : state :=
  foldl (step positions) init es.

(** At most one call is in flight, and none unless the flag is raised. *)
Definition singleFlight (st : state) : Prop :=
  inFlight st = [] ∨ (isUpdating st = true ∧ length (inFlight st) = 1%nat).

Definition fromHeader (e : event) : Prop := e ≠ ClickNav.

End Busy.

(* ================================================================== *)
(** ** The seed dataset of [App] *)

(** The two positions and the two accounts installed when nothing is saved,
    with the start-up clock at [0]. *)
Definition voo : Investment.t :=
  Investment.mk 1 "VOO" "S&P 500 ETF" "USD" (Num (int 512))
    (Num (frac 782 100)) (Num (int 10)) (Num (int 480)) (Num (int 60))
    (Some 0) None.

Definition tracker : Investment.t :=
  Investment.mk 2 "2800.HK" "盈富基金" "HKD" (Num (frac 185 10))
    (Num (int 1)) (Num (int 2000)) (Num (frac 175 10)) (Num (int 40))
    (Some 0) None.

Definition seedInvestments : list Investment.t := [voo; tracker].

Definition cash : AssetAccount.t :=
  AssetAccount.mk 1 "現金帳戶 (HKD)" "HKD" (Num (int 50000)) (Num (int 1)) None.

(** The auto-derived seed account. *)
Definition brokerage : AssetAccount.t :=
  AssetAccount.mk 2 "美股證券帳戶" "USD" Null (Num (frac 782 100)) (Some true).

Definition seedAccounts : list AssetAccount.t := [cash; brokerage].

(** An answer of the service used in the examples. *)
Definition sampleQuote : PriceResult.t :=
  PriceResult.mk (Num (frac 1905 100)) "Tracker Fund of Hong Kong" "HKD"
    ["https://www.google.com/finance/quote/2800:HKG"%string].

(** A batch in which the first lookup fails and every later one succeeds. *)
Definition firstLookupFails (i : nat) (_ : string) : option PriceResult.t :=
  match i with
  | O => None
  | S _ => Some sampleQuote
  end.

(* ================================================================== *)
(** ** Display of the advice and the footer of the table *)



Section Footer.

Variable baseCurrency : BaseCurrency.
Variable hkdTwdRate : number.
Variable investments : list Investment.t.

(** The two further [reduce] calls of the table footer. *)
Definition totalCostBase : number :=
  foldl (fun s i => add s (costBase i)) zero
    (invDetails baseCurrency hkdTwdRate investments).

Definition totalProfitBase : number :=
  foldl (fun s i => add s (profitBase i)) zero
    (invDetails baseCurrency hkdTwdRate investments).

(** The percentage of the footer, before [toFixed]: the total cost is
    replaced by [1] when it is falsy. *)
Definition totalProfitPct : number :=
  mul (div totalProfitBase (or_default (Num totalCostBase) one)) hundred.

End Footer.

(** Sum of rationals read off the elements of a list. *)
Definition qsum {A : Type} (g : A → Qc) (l : list A) : Qc :=
  foldr (fun x s => (g x + s)%Qc) (Q2Qc 0) l.

(** The rational held by a number, [0] for the special values. *)
Definition qval (n : number) : Qc :=
  match n with
  | Fin q => q
  | _ => Q2Qc 0
  end.

(* ================================================================== *)
(** ** The relative time of the last update *)

(** The four outcomes of [getRelativeTime]; the last one stands for the
    locale rendering of the timestamp. *)
Inductive RelativeTime : Type :=
| NeverUpdated
| JustNow
| MinutesAgo (mins : Z)
| ClockTime (timestamp : Z).

(** [now] is the value of [Date.now()]. *)
Definition getRelativeTime (now : Z) (timestamp : option Z) : RelativeTime :=
  match timestamp with
  | None => NeverUpdated
  | Some t =>
      if t =? 0 then NeverUpdated
      else
        let diff := now - t in
        let mins := diff / 60000 in
        if mins <? 1 then JustNow
        else if mins <? 60 then MinutesAgo mins
        else ClockTime t
  end.

(* ================================================================== *)
(** ** The rate lookup *)

(** [fetchHkdTwdRate]: [None] is a request or parse failure, [Some v] the
    [rate] field of the parsed answer. *)
Definition fetchedRate (response : option value) : number :=
  match response with
  | Some v => or_default v (frac 415 100)
  | None => frac 415 100
  end.

(* ================================================================== *)
(** ** Creating, editing and deleting records *)

Section SaveItem.

(** The records of a collection, the object a form submits, the identifier
    of a record, the spread [{...i, ...data}] and the new record
    [{...data, id}]. *)
Variable A D : Type.
Variable getId : A → Z.
Variable merge : A → D → A.
Variable create : D → Z → A.

(** The update [saveItem] hands to the setter: [editing] is the identifier
    of [editingItem] when there is one, [now] the value of [Date.now()]. *)
Definition saveItem (editing : option Z) (data : D) (now : Z) (prev : list A)
  : list A :=
  match editing with
  | Some eid => map (fun i => if getId i =? eid then merge i data else i) prev
  | None => prev ++ [create data now]
  end.

(** The update of the delete buttons. *)
Definition deleteItem (x : Z) (prev : list A) : list A :=
  filter (fun i => getId i ≠ x) prev.

End SaveItem.

(** The object the position form submits. *)
Module InvestmentData.
Record t : Type := mk {
  symbol : string;
  name : string;
  currency : string;
  currentPrice : value;
  exchangeRate : value;
  overrideShares : value;
  initialPurchasePrice : value;
  targetAllocation : value;
  lastUpdated : option Z;
  dataSource : option string
}.
End InvestmentData.

Definition mergeInvestment (i : Investment.t) (d : InvestmentData.t)
  : Investment.t :=
  {| Investment.id := Investment.id i;
     Investment.symbol := InvestmentData.symbol d;
     Investment.name := InvestmentData.name d;
     Investment.currency := InvestmentData.currency d;
     Investment.currentPrice := InvestmentData.currentPrice d;
     Investment.exchangeRate := InvestmentData.exchangeRate d;
     Investment.overrideShares := InvestmentData.overrideShares d;
     Investment.initialPurchasePrice := InvestmentData.initialPurchasePrice d;
     Investment.targetAllocation := InvestmentData.targetAllocation d;
     Investment.lastUpdated := InvestmentData.lastUpdated d;
     Investment.dataSource := InvestmentData.dataSource d |}.

Definition createInvestment (d : InvestmentData.t) (now : Z) : Investment.t :=
  {| Investment.id := now;
     Investment.symbol := InvestmentData.symbol d;
     Investment.name := InvestmentData.name d;
     Investment.currency := InvestmentData.currency d;
     Investment.currentPrice := InvestmentData.currentPrice d;
     Investment.exchangeRate := InvestmentData.exchangeRate d;
     Investment.overrideShares := InvestmentData.overrideShares d;
     Investment.initialPurchasePrice := InvestmentData.initialPurchasePrice d;
     Investment.targetAllocation := InvestmentData.targetAllocation d;
     Investment.lastUpdated := InvestmentData.lastUpdated d;
     Investment.dataSource := InvestmentData.dataSource d |}.

(** [a || b] on two fields. *)
Definition or_value (a b : value) : value :=
  match a with
  | Num n => if truthy n then a else b
  | Undefined | Null => b
  end.

(** [a || d] on an optional string: [undefined] and the empty string are
    falsy. *)
Definition or_string (a : option string) (d : string) : string :=
  match a with
  | Some s => if String.eqb s "" then d else s
  | None => d
  end.

(** [o?.field] on a numeric field. *)
Definition optField {R : Type} (f : R → value) (o : option R) : value :=
  match o with
  | Some r => f r
  | None => Undefined
  end.

(** [sym.endsWith(suffix)] *)
Definition endsWith (sym suffix : string) : bool :=
  let n := String.length sym in
  let m := String.length suffix in
  (m <=? n)%nat && String.eqb (String.substring (n - m) m sym) suffix.

(** The object built by the submit handler of the position form from the
    upper-cased ticker [sym], the [parseFloat] of the four numeric inputs,
    the answer of the price lookup and [editingItem]. *)
Definition investmentFormData (sym : string) (rate shares cost target : number)
    (marketData : option PriceResult.t) (editingItem : option Investment.t)
    (now : Z) : InvestmentData.t :=
  {| InvestmentData.symbol := sym;
     InvestmentData.name :=
       or_string (PriceResult.name <$> marketData)
         (or_string (Investment.name <$> editingItem) "Searching...");
     InvestmentData.currency :=
       or_string (PriceResult.currency <$> marketData)
         (or_string (Investment.currency <$> editingItem) "USD");
     InvestmentData.currentPrice :=
       Num (or_default
              (or_value (optField PriceResult.price marketData)
                 (optField Investment.currentPrice editingItem))
              zero);
     InvestmentData.exchangeRate :=
       Num (or_default (Num rate)
              (if endsWith sym ".HK" then one else frac 782 100));
     InvestmentData.overrideShares := Num (or_default (Num shares) zero);
     InvestmentData.initialPurchasePrice := Num (or_default (Num cost) zero);
     InvestmentData.targetAllocation := Num (or_default (Num target) zero);
     InvestmentData.lastUpdated := Some now;
     InvestmentData.dataSource := Some "Google Search API"%string |}.

(** The object the account form submits. *)
Module AccountData.
Record t : Type := mk {
  name : string;
  currency : string;
  amount : value;
  exchangeRate : value;
  autoFromInvestments : option bool
}.
End AccountData.

Definition mergeAccount (a : AssetAccount.t) (d : AccountData.t)
  : AssetAccount.t :=
  {| AssetAccount.id := AssetAccount.id a;
     AssetAccount.name := AccountData.name d;
     AssetAccount.currency := AccountData.currency d;
     AssetAccount.amount := AccountData.amount d;
     AssetAccount.exchangeRate := AccountData.exchangeRate d;
     AssetAccount.autoFromInvestments := AccountData.autoFromInvestments d |}.

Definition createAccount (d : AccountData.t) (now : Z) : AssetAccount.t :=
  {| AssetAccount.id := now;
     AssetAccount.name := AccountData.name d;
     AssetAccount.currency := AccountData.currency d;
     AssetAccount.amount := AccountData.amount d;
     AssetAccount.exchangeRate := AccountData.exchangeRate d;
     AssetAccount.autoFromInvestments := AccountData.autoFromInvestments d |}.

(** Truthiness of [editingItem?.autoFromInvestments]. *)
Definition editingAuto (editingItem : option AssetAccount.t) : bool :=
  match editingItem with
  | Some a => AssetAccount.isAuto a
  | None => false
  end.

(** The object built by the submit handler of the account form from the
    two text inputs, the [parseFloat] of the two numeric inputs and
    [editingItem]. *)
Definition accountFormData (name currency : string) (amount rate : number)
    (editingItem : option AssetAccount.t) : AccountData.t :=
  {| AccountData.name := name;
     AccountData.currency := currency;
     AccountData.amount :=
       if editingAuto editingItem then Null
       else Num (or_default (Num amount) zero);
     AccountData.exchangeRate := Num (or_default (Num rate) one);
     AccountData.autoFromInvestments := Some (editingAuto editingItem) |}.

(* ================================================================== *)
(** ** The calculations on binary64 numbers *)

(** The same calculations with the numbers of the program itself: IEEE 754
    binary64 values with round-to-nearest, as given by the primitive floats.
    This is the model for every figure that depends on rounding. *)
Module Binary64.

#[local] Set Warnings "-inexact-float".
Local Open Scope float_scope.

Definition number : Set := float.

Definition add (a b : number) : number := PrimFloat.add a b.
Definition sub (a b : number) : number := PrimFloat.sub a b.
Definition mul (a b : number) : number := PrimFloat.mul a b.
Definition div (a b : number) : number := PrimFloat.div a b.

(** [a > b] *)
Definition gt (a b : number) : bool := PrimFloat.ltb b a.

(** ToBoolean on numbers: [0], [-0] and [NaN] are falsy. *)
Definition truthy (a : number) : bool :=
  negb (PrimFloat.eqb a 0) && negb (PrimFloat.is_nan a).

Inductive value : Type :=
| Undefined
| Null
| Num (n : number).

(** [v || d] with a numeric default [d]. *)
Definition or_default (v : value) (d : number) : number :=
  match v with
  | Num n => if truthy n then n else d
  | Undefined | Null => d
  end.

Module Investment.
Record t : Type := mk {
  id : Z;
  symbol : string;
  name : string;
  currency : string;
  currentPrice : value;
  exchangeRate : value;
  overrideShares : value;
  initialPurchasePrice : value;
  targetAllocation : value;
  lastUpdated : option Z;
  dataSource : option string
}.
End Investment.

Module AssetAccount.
Record t : Type := mk {
  id : Z;
  name : string;
  currency : string;
  amount : value;
  exchangeRate : value;
  autoFromInvestments : option bool
}.

Definition isAuto (acc : t) : bool :=
  match autoFromInvestments acc with
  | Some true => true
  | _ => false
  end.
End AssetAccount.

Record InvDetail : Type := mkInvDetail {
  inv : Investment.t;
  shares : number;
  buyPrice : number;
  costBase : number;
  valueBase : number;
  profitBase : number;
  profitPct : number
}.

Section Calculations.

Variable baseCurrency : BaseCurrency.
Variable hkdTwdRate : number.
Variable investments : list Investment.t.

Definition toBase (hkdValue : number) : number :=
  match baseCurrency with
  | HKD => hkdValue
  | TWD => mul hkdValue hkdTwdRate
  end.

Definition inv_shares (i : Investment.t) : number :=
  or_default (Investment.overrideShares i) 0.
Definition inv_rateToHkd (i : Investment.t) : number :=
  or_default (Investment.exchangeRate i) 1.
Definition inv_currentPrice (i : Investment.t) : number :=
  or_default (Investment.currentPrice i) 0.
Definition inv_buyPrice (i : Investment.t) : number :=
  or_default (Investment.initialPurchasePrice i) 0.

Definition valueHKD (i : Investment.t) : number :=
  mul (mul (inv_shares i) (inv_currentPrice i)) (inv_rateToHkd i).
Definition costHKD (i : Investment.t) : number :=
  mul (mul (inv_shares i) (inv_buyPrice i)) (inv_rateToHkd i).
Definition profitHKD (i : Investment.t) : number :=
  sub (valueHKD i) (costHKD i).

Definition invDetail (i : Investment.t) : InvDetail :=
  {| inv := i;
     shares := inv_shares i;
     buyPrice := inv_buyPrice i;
     costBase := toBase (costHKD i);
     valueBase := toBase (valueHKD i);
     profitBase := toBase (profitHKD i);
     profitPct :=
       if gt (costHKD i) 0
       then mul (div (profitHKD i) (costHKD i)) 100
       else 0 |}.

Definition invDetails : list InvDetail := map invDetail investments.

Definition totalInvBase : number :=
  foldl (fun s i => add s (valueBase i)) 0 invDetails.

Definition acc_rateToHkd (a : AssetAccount.t) : number :=
  or_default (AssetAccount.exchangeRate a) 1.
Definition totalInvHKD : number :=
  div totalInvBase (match baseCurrency with HKD => 1 | TWD => hkdTwdRate end).
Definition acc_amount (a : AssetAccount.t) : number :=
  if AssetAccount.isAuto a
  then div totalInvHKD (acc_rateToHkd a)
  else or_default (AssetAccount.amount a) 0.
Definition acc_amountHKD (a : AssetAccount.t) : number :=
  mul (acc_amount a) (acc_rateToHkd a).
Definition acc_amountBase (a : AssetAccount.t) : number :=
  toBase (acc_amountHKD a).

End Calculations.



(** [|a - b| < eps] *)
Definition within (eps a b : number) : bool :=
  PrimFloat.ltb (PrimFloat.abs (sub a b)) eps.

(** The first seed position, the auto-derived seed account, and the same
    account with a rate of 8.45. *)
Definition voo : Investment.t :=
  Investment.mk 1 "VOO" "S&P 500 ETF" "USD" (Num 512) (Num 7.82) (Num 10)
    (Num 480) (Num 60) (Some 0%Z) None.

Definition brokerage : AssetAccount.t :=
  AssetAccount.mk 2 "美股證券帳戶" "USD" Null (Num 7.82) (Some true).


End Binary64.

(* ================================================================== *)
(** ** The busy flag with the position form *)

(** The busy flag with all its writers: [syncAll] and the submit handler of
    the position form, which raises the flag, awaits one price lookup and
    lowers the flag. *)
Module Flag.

Record state : Type := mk {
  isUpdating : bool;
  inFlight : list nat;     (* the [syncAll] calls, by remaining [await]s *)
  lookups : nat            (* the form submissions awaiting their lookup *)
}.

Inductive event : Type :=
| ClickHeader            (* the button of the header, [disabled={isUpdating}] *)
| ClickNav               (* the button of the floating navigation *)
| Resume (k : nat)       (* the pending [await] of the k-th call resolves *)
| Submit                 (* the form's submit button, [disabled={isUpdating}] *)
| Resolve.               (* the lookup of a submitted form resolves *)

Definition init : state :=
  {| isUpdating := false; inFlight := []; lookups := 0 |}.

Definition startSync (positions : nat) (st : state) : state :=
  {| isUpdating := true;
     inFlight := inFlight st ++ [S positions];
     lookups := lookups st |}.

Definition resume (k : nat) (st : state) : state :=
  match inFlight st !! k with
  | Some (S (S n)) =>
      {| isUpdating := isUpdating st;
         inFlight := <[k := S n]> (inFlight st);
         lookups := lookups st |}
  | Some _ =>
      {| isUpdating := false;
         inFlight := delete k (inFlight st);
         lookups := lookups st |}
  | None => st
  end.

(** The submit handler up to its [await]. *)
Definition submit (st : state) : state :=
  {| isUpdating := true; inFlight := inFlight st; lookups := S (lookups st) |}.

(** The submit handler after its [await]. *)
Definition resolve (st : state) : state :=
  match lookups st with
  | O => st
  | S n => {| isUpdating := false; inFlight := inFlight st; lookups := n |}
  end.

Definition step (positions : nat) (st : state) (e : event) : state :=
  match e with
  | ClickHeader => if isUpdating st then st else startSync positions st
  | ClickNav => startSync positions st
  | Resume k => resume k st
  | Submit => if isUpdating st then st else submit st
  | Resolve => resolve st
  end.

Definition run (positions : nat) (es : list event) : state :=
  foldl (step positions) init es.

(** Every event but a click on the navigation button. *)
Definition guarded (e : event) : Prop := e ≠ ClickNav.

(** Nothing is pending and the flag is lowered, or the flag is raised for
    exactly one pending operation. *)
Definition oneHolder (st : state) : Prop :=
  (isUpdating st = false ∧ inFlight st = [] ∧ lookups st = O)
  ∨ (isUpdating st = true ∧ (∃ n, inFlight st = [S n]) ∧ lookups st = O)
  ∨ (isUpdating st = true ∧ inFlight st = [] ∧ lookups st = 1%nat).

End Flag.

(* ================================================================== *)
(** ** Arithmetic of [number] *)

Section NumberFacts.

Local Open Scope Qc_scope.

Lemma sgn_zero : sgn 0 = Eq.
Proof. reflexivity. Qed.

Lemma sgn_Eq (q : Qc) : sgn q = Eq ↔ q = 0.
Proof. unfold sgn. symmetry. apply Qceq_alt. Qed.

(** [x - 0] is [x], special values included. *)
Lemma sub_zero_r (a : number) : sub a zero = a.
Proof.
  destruct a as [x | | |]; try reflexivity.
  unfold sub, zero; simpl. f_equal.
  change (- Q2Qc 0) with 0. apply Qcplus_0_r.
Qed.

(** [x / 1] is [x]. *)
Lemma div_one_r (a : number) : div a one = a.
Proof.
  destruct a as [x | | |]; try reflexivity.
  unfold div, one. change (sgn (Q2Qc 1)) with Gt. f_equal.
  apply (right_id (Q2Qc 1) Qcdiv).
Qed.

(** A product with a falsy-or-zero factor is never greater than zero. *)
Lemma gt_mul_zero_l (b : number) : gt (mul zero b) zero = false.
Proof.
  by destruct b.
Qed.

Lemma mul_NaN_l (b : number) : mul NaN b = NaN.
Proof. by destruct b. Qed.

(** A number that is not greater than zero stays so when multiplied by zero
    or [NaN] on the left of a further factor. *)
Lemma mul_zero_shape (b : number) : mul zero b = zero ∨ mul zero b = NaN.
Proof.
  destruct b as [y | | |]; auto.
  left. unfold mul, zero. f_equal. change (Q2Qc 0) with 0. apply Qcmult_0_l.
Qed.

Lemma mul_zero_shape_r (a : number) : mul a zero = zero ∨ mul a zero = NaN.
Proof.
  destruct a as [x | | |]; auto.
  left. unfold mul, zero. f_equal. change (Q2Qc 0) with 0. apply Qcmult_0_r.
Qed.

(** [v || d] is an infinity only if [v] is one. *)
Lemma or_default_fin (v : value) (d : Qc) :
  not_infinite v = true → ∃ q, or_default v (Fin d) = Fin q.
Proof.
  destruct v as [| | [x | | |]]; cbn [or_default not_infinite truthy];
    try done; eauto.
  destruct (sgn x); eauto.
Qed.


(** [v || 0] is the number held by the field with the default filled in;
    [v || 1] is too, unless the field holds exactly [0]. *)
Lemma or_default_zero_filled (v : value) :
  or_default v zero = to_number (withDefault zero v).
Proof.
  destruct v as [| | [x | | |]]; try reflexivity.
  cbn [or_default truthy withDefault missing to_number].
  destruct (sgn x) eqn:Hs; try reflexivity.
  apply sgn_Eq in Hs. by subst x.
Qed.

Lemma or_default_one_filled (v : value) :
  v ≠ Num zero → or_default v one = to_number (withDefault one v).
Proof.
  intros Hv. destruct v as [| | [x | | |]]; try reflexivity.
  cbn [or_default truthy withDefault missing to_number].
  destruct (sgn x) eqn:Hs; try reflexivity.
  apply sgn_Eq in Hs. by subst x.
Qed.

(** The special values behave as in ECMAScript. *)
Example special_values :
  sub PosInf PosInf = NaN
  ∧ mul zero PosInf = NaN
  ∧ div one zero = PosInf
  ∧ div (neg one) zero = NegInf
  ∧ div zero zero = NaN
  ∧ div one PosInf = zero
  ∧ gt NaN zero = false
  ∧ gt zero NaN = false
  ∧ or_default (Num NaN) one = one
  ∧ or_default (Num zero) one = one
  ∧ or_default Null zero = zero
  ∧ to_number Undefined = NaN.
Proof. by repeat split. Qed.

End NumberFacts.

(* ================================================================== *)
(** ** Facts about the calculations *)

(** Closes an equation between two closed rational figures. *)
Ltac fin_eq :=
  vm_compute;
  lazymatch goal with
  | |- Fin _ = Fin _ => f_equal; apply Qc_is_canon; vm_compute; reflexivity
  | |- _ => reflexivity
  end.

Section CalculationFacts.

Variable baseCurrency : BaseCurrency.
Variable hkdTwdRate : number.






(** With no infinite input the anchor value of a position is a rational. *)
Lemma valueHKD_fin (i : Investment.t) :
  boundedInvestment i = true → ∃ v, valueHKD i = Fin v.
Proof.
  unfold boundedInvestment. rewrite !andb_true_iff.
  intros [[[Hs Hp] _] Hr].
  destruct (or_default_fin _ (Q2Qc 0) Hs) as [s Es].
  destruct (or_default_fin _ (Q2Qc 0) Hp) as [p Ep].
  destruct (or_default_fin _ (Q2Qc 1) Hr) as [r Er].
  unfold valueHKD, inv_shares, inv_currentPrice, inv_rateToHkd.
  fold zero one in Es, Ep, Er. rewrite Es, Ep, Er. simpl. eauto.
Qed.

End CalculationFacts.

(* ================================================================== *)
(** ** Guards of the divisions *)

(** A chain of products through a zero factor is never greater than zero. *)
Lemma gt_mul_mul_zero_mid (s r : number) : gt (mul (mul s zero) r) zero = false.
Proof.
  destruct (mul_zero_shape_r s) as [-> | ->].
  - apply gt_mul_zero_l.
  - by rewrite mul_NaN_l.
Qed.

Lemma gt_mul_mul_zero_left (p r : number) : gt (mul (mul zero p) r) zero = false.
Proof.
  destruct (mul_zero_shape p) as [-> | ->].
  - apply gt_mul_zero_l.
  - by rewrite mul_NaN_l.
Qed.

(** With rational inputs the conversion, the totals and a guarded division
    stay rational. *)
Lemma toBase_fin (baseCurrency : BaseCurrency) (hkdTwdRate : number) (x : Qc) :
  finiteRate baseCurrency hkdTwdRate = true →
  ∃ y, toBase baseCurrency hkdTwdRate (Fin x) = Fin y.
Proof.
  destruct baseCurrency; simpl; [eauto |].
  destruct hkdTwdRate; try done. simpl. eauto.
Qed.

(** C4.  The three divisions are guarded: an anchor cost of zero (in
    particular a cost basis or a share count of zero) gives [profitPct = 0],
    a base unit price of zero gives a suggestion of [0], and a total
    invested of zero gives a current allocation of [0]: in each case the
    result is the number [0], not [NaN] or an infinity. *)
Theorem division_hazards_guarded (baseCurrency : BaseCurrency)
    (hkdTwdRate monthlyBudget : number) (investments : list Investment.t) :
  (∀ i, costHKD i = zero →
        profitPct (invDetail baseCurrency hkdTwdRate i) = zero)
  ∧ (∀ i, inv_buyPrice i = zero ∨ inv_shares i = zero →
          profitPct (invDetail baseCurrency hkdTwdRate i) = zero)
  ∧ (∀ d, adv_priceBase baseCurrency hkdTwdRate d = zero →
          suggest (advise baseCurrency hkdTwdRate monthlyBudget investments d)
          = zero)
  ∧ (∀ d, totalInvBase baseCurrency hkdTwdRate investments = zero →
          currentPct (advise baseCurrency hkdTwdRate monthlyBudget investments d)
          = zero).
Proof.
  split; [| split; [| split]].
  - intros i H. cbn [invDetail profitPct]. by rewrite H.
  - intros i [H | H]; cbn [invDetail profitPct]; unfold costHKD; rewrite H.
    + by rewrite gt_mul_mul_zero_mid.
    + by rewrite gt_mul_mul_zero_left.
  - intros d H. cbn [advise suggest]. by rewrite H.
  - intros d H. cbn [advise currentPct]. by rewrite H.
Qed.

Lemma division_hazards_guarded_witness :
  profitPct (invDetail HKD one
     (Investment.mk 1 "VOO" "S&P 500 ETF" "USD" (Num (int 512))
        (Num (frac 782 100)) (Num (int 10)) (Num zero) (Num (int 60))
        None None)) = zero
  ∧ suggest (advise TWD zero (int 10000) [voo] (invDetail TWD zero voo)) = zero
  ∧ currentPct (advise HKD one (int 10000) [] (invDetail HKD one voo)) = zero.
Proof.
  pose proof (division_hazards_guarded HKD one (int 10000) []) as (_ & Hb & _ & Hc).
  pose proof (division_hazards_guarded TWD zero (int 10000) [voo]) as (_ & _ & Hs & _).
  split; [| split].
  - apply Hb. left. reflexivity.
  - apply Hs. vm_compute. f_equal. apply Qc_is_canon. reflexivity.
  - apply Hc. reflexivity.
Defined.

(* ================================================================== *)
(** ** Portfolio totals *)

(** C9.  With no position the total invested is exactly [0], and the liquid
    cash equals the total of the accounts. *)
Theorem empty_portfolio_totals (baseCurrency : BaseCurrency)
    (hkdTwdRate : number) (accounts : list AssetAccount.t) :
  totalInvBase baseCurrency hkdTwdRate [] = zero
  ∧ liquidCashBase baseCurrency hkdTwdRate [] accounts
    = totalAssetsBase baseCurrency hkdTwdRate [] accounts.
Proof.
  split; [reflexivity |].
  unfold liquidCashBase. change (totalInvBase baseCurrency hkdTwdRate []) with zero.
  apply sub_zero_r.
Qed.

(* ================================================================== *)
(** ** Missing fields and zero rates *)

Section Defaults.

Variable baseCurrency : BaseCurrency.
Variable hkdTwdRate : number.
Variable monthlyBudget : number.







End Defaults.

(** C10.  A stored [exchangeRate] of exactly [0] is used as [1] in the
    valuation of a position, in the aggregation of an account (the division
    of the auto-derived branch included) and in the unit price of the
    rebalancing advice; the rate an account divides by is never zero. *)
Theorem zero_rate_counts_as_one (baseCurrency : BaseCurrency)
    (hkdTwdRate : number) (investments : list Investment.t) :
  (∀ i, Investment.exchangeRate i = Num zero →
        valueHKD i = mul (mul (inv_shares i) (inv_currentPrice i)) one
        ∧ costHKD i = mul (mul (inv_shares i) (inv_buyPrice i)) one)
  ∧ (∀ a, AssetAccount.exchangeRate a = Num zero →
          acc_rateToHkd a = one
          ∧ (AssetAccount.isAuto a = true →
             acc_amount baseCurrency hkdTwdRate investments a
             = div (totalInvHKD baseCurrency hkdTwdRate investments) one)
          ∧ acc_amountHKD baseCurrency hkdTwdRate investments a
            = mul (acc_amount baseCurrency hkdTwdRate investments a) one)
  ∧ (∀ d, Investment.exchangeRate (inv d) = Num zero →
          adv_priceHKD d = mul (to_number (Investment.currentPrice (inv d))) one)
  ∧ (∀ a, acc_rateToHkd a ≠ zero ∧ acc_rateToHkd a ≠ NaN).
Proof.
  split; [| split; [| split]].
  - intros i H. unfold valueHKD, costHKD, inv_rateToHkd. by rewrite H.
  - intros a H.
    assert (E : acc_rateToHkd a = one) by (unfold acc_rateToHkd; by rewrite H).
    split; [done |]. split.
    + intros Ha. unfold acc_amount. by rewrite Ha, E.
    + unfold acc_amountHKD. by rewrite E.
  - intros d H. unfold adv_priceHKD. by rewrite H.
  - intros a. unfold acc_rateToHkd.
    destruct (AssetAccount.exchangeRate a) as [| | [x | | |]];
      cbn [or_default truthy]; try done.
    destruct (sgn x) eqn:Hs; try done.
    + split; [| done]. intros [= ->]. by rewrite sgn_zero in Hs.
    + split; [| done]. intros [= ->]. by rewrite sgn_zero in Hs.
Qed.

Lemma zero_rate_counts_as_one_witness :
  let a := AssetAccount.mk 2 "美股證券帳戶" "USD" Null (Num zero) (Some true) in
  acc_rateToHkd a = one
  ∧ acc_amount HKD one [voo] a = div (totalInvHKD HKD one [voo]) one.
Proof.
  intros a.
  pose proof (zero_rate_counts_as_one HKD one [voo]) as (_ & Ha & _).
  destruct (Ha a eq_refl) as (H1 & H2 & _).
  split; [exact H1 | exact (H2 eq_refl)].
Defined.

(* ================================================================== *)
(** ** Rebalancing advice: the projected total *)

(** C2.  The projected total adds [toBase monthlyBudget] to the total
    invested.  With HKD as the base currency that is the budget itself;
    with TWD the budget, already entered in TWD, is multiplied by the
    HKD-to-TWD rate once more: a budget of 10000 at a rate of 4.15 and no
    position projects 41500, not 10000. *)
Theorem projected_total_converts_budget :
  (∀ rate budget investments,
     totalFutureValueBase HKD rate budget investments
     = add (totalInvBase HKD rate investments) budget)
  ∧ (∀ rate budget investments,
       totalFutureValueBase TWD rate budget investments
       = add (totalInvBase TWD rate investments) (mul budget rate))
  ∧ totalFutureValueBase TWD (frac 415 100) (int 10000) [] = int 41500
  ∧ add (totalInvBase TWD (frac 415 100) []) (int 10000) = int 10000
  ∧ int 41500 ≠ int 10000.
Proof.
  split; [done |]. split; [done |].
  split; [fin_eq |]. split; [fin_eq |].
  intros H.
  apply (f_equal (fun n => match n with Fin q => Qnum (this q) | _ => 0 end)) in H.
  vm_compute in H. discriminate H.
Qed.

(* ================================================================== *)
(** ** Batch refresh *)

Section RefreshFacts.

Variable fetchRealtimePrice : nat → string → option PriceResult.t.
Variable fetchHkdTwdRate : number.
Variable now : nat → Z.

Local Abbreviation step := (syncStep fetchRealtimePrice now).
Local Abbreviation one_pass := (refreshOne fetchRealtimePrice now).

(** One iteration touches the slot of its own index only. *)
Lemma syncStep_lookup (s : list Investment.t * list string) (i j : nat) :
  (step s i).1 !! j
  = if decide (i = j) then one_pass i <$> (s.1 !! i) else s.1 !! j.
Proof.
  destruct s as [l srcs]. unfold syncStep, refreshOne. simpl.
  destruct (l !! i) as [old |] eqn:E; simpl.
  - destruct (fetchRealtimePrice i (Investment.symbol old)) as [res |]; simpl.
    + case_decide as Hij.
      * subst j. apply list_lookup_insert_eq. by eapply lookup_lt_Some.
      * by apply list_lookup_insert_ne.
    + case_decide; by subst.
  - case_decide; by subst.
Qed.

Lemma syncStep_length (s : list Investment.t * list string) (i : nat) :
  length (step s i).1 = length s.1.
Proof.
  destruct s as [l srcs]. unfold syncStep. simpl.
  destruct (l !! i) as [old |]; [| done].
  destruct (fetchRealtimePrice i (Investment.symbol old)); [| done].
  simpl. apply length_insert.
Qed.

(** The iterations for the indices [a, a + n) refresh exactly those slots,
    each from what it held before the loop. *)
Lemma syncFold_lookup (n a : nat) (s : list Investment.t * list string)
    (j : nat) :
  (foldl step s (seq a n)).1 !! j
  = if decide (a ≤ j < a + n)%nat then one_pass j <$> (s.1 !! j) else s.1 !! j.
Proof.
  revert a s. induction n as [| n IH]; intros a s; simpl.
  - case_decide; [exfalso; lia | done].
  - rewrite IH, !syncStep_lookup.
    repeat case_decide; subst; try done; exfalso; lia.
Qed.

Lemma syncFold_length (n a : nat) (s : list Investment.t * list string) :
  length (foldl step s (seq a n)).1 = length s.1.
Proof.
  revert a s. induction n as [| n IH]; intros a s; simpl; [done |].
  by rewrite IH, syncStep_length.
Qed.

(** After the loop every slot holds its own refresh of the position that
    was there. *)
Lemma syncLoop_lookup (investments : list Investment.t) (j : nat) :
  (syncLoop fetchRealtimePrice now investments).1 !! j
  = one_pass j <$> (investments !! j).
Proof.
  unfold syncLoop. rewrite syncFold_lookup. simpl.
  case_decide as H; [done |].
  rewrite (lookup_ge_None_2 investments j) by lia. done.
Qed.

Lemma syncAll_investments (st : App.state) :
  App.investments (syncAll fetchRealtimePrice fetchHkdTwdRate now st)
  = (syncLoop fetchRealtimePrice now (App.investments st)).1.
Proof.
  unfold syncAll.
  by destruct (syncLoop fetchRealtimePrice now (App.investments st)).
Qed.

(** C5.  After a batch refresh the position at every index is the position
    that was there with, when its lookup succeeded, [currentPrice], [name],
    [currency], [lastUpdated] and [dataSource] replaced, and is the very
    same record when its lookup failed, whatever happened to the other
    lookups of the batch; [id], [symbol], [exchangeRate], [overrideShares],
    [initialPurchasePrice] and [targetAllocation] are the old ones in both
    cases, and no position is added or dropped. *)
Theorem refresh_frame (st : App.state) (i : nat) (old : Investment.t) :
  App.investments st !! i = Some old →
  let st' := syncAll fetchRealtimePrice fetchHkdTwdRate now st in
  length (App.investments st') = length (App.investments st)
  ∧ ∃ new,
      App.investments st' !! i = Some new
      ∧ (Investment.id new = Investment.id old
         ∧ Investment.symbol new = Investment.symbol old
         ∧ Investment.exchangeRate new = Investment.exchangeRate old
         ∧ Investment.overrideShares new = Investment.overrideShares old
         ∧ Investment.initialPurchasePrice new
           = Investment.initialPurchasePrice old
         ∧ Investment.targetAllocation new = Investment.targetAllocation old)
      ∧ (fetchRealtimePrice i (Investment.symbol old) = None → new = old)
      ∧ (∀ res, fetchRealtimePrice i (Investment.symbol old) = Some res →
                Investment.currentPrice new = PriceResult.price res
                ∧ Investment.name new = PriceResult.name res
                ∧ Investment.currency new = PriceResult.currency res
                ∧ Investment.lastUpdated new = Some (now i)
                ∧ Investment.dataSource new
                  = Some "Google Search API"%string).
Proof.
  intros Hold st'. subst st'. rewrite syncAll_investments. split.
  - unfold syncLoop. by rewrite syncFold_length.
  - exists (one_pass i old). rewrite syncLoop_lookup, Hold. split; [done |].
    unfold refreshOne.
    destruct (fetchRealtimePrice i (Investment.symbol old)) as [res |].
    + split; [done |]. split; [done |]. by intros ? [= <-].
    + by repeat split.
Qed.

End RefreshFacts.


Lemma refresh_frame_witness :
  let st := App.mk seedInvestments (frac 415 100) true [] in
  let st' := syncAll firstLookupFails (frac 42 10) (fun _ => 1700000000000) st in
  App.investments st' !! 0%nat = seedInvestments !! 0%nat
  ∧ ∃ new, App.investments st' !! 1%nat = Some new
      ∧ Investment.currentPrice new = Num (frac 1905 100)
      ∧ Investment.overrideShares new = Num (int 2000).
Proof.
  intros st st'. split.
  - destruct (refresh_frame firstLookupFails (frac 42 10)
                (fun _ => 1700000000000) st 0 voo eq_refl)
      as (_ & new & Hnew & _ & Hsame & _).
    fold st' in Hnew. rewrite Hnew, (Hsame eq_refl). reflexivity.
  - destruct (refresh_frame firstLookupFails (frac 42 10)
                (fun _ => 1700000000000) st 1 tracker eq_refl)
      as (_ & new & Hnew & Hframe & _ & Hupd).
    exists new. split; [exact Hnew |].
    destruct (Hupd sampleQuote eq_refl) as (Hp & _).
    destruct Hframe as (_ & _ & _ & Hs & _).
    split; [exact Hp | exact Hs].
Defined.

(* ================================================================== *)
(** ** The busy flag *)

Section BusyFacts.

Import Busy.

Variable positions : nat.

Lemma singleFlight_step (st : state) (e : event) :
  singleFlight st → fromHeader e → singleFlight (step positions st e).
Proof.
  intros Hst He. destruct e as [| | k]; [| done |].
  - simpl. destruct (isUpdating st) eqn:Hu; [done |].
    destruct Hst as [Hnil | [Hup _]]; [| congruence].
    right. unfold startSync. simpl. by rewrite Hnil.
  - simpl. unfold resume. destruct Hst as [Hnil | [Hup Hlen]].
    + rewrite Hnil. simpl. by left.
    + destruct (inFlight st) as [| n [| ? ?]] eqn:Hfl; try done.
      destruct k as [| k]; simpl.
      * destruct n as [| [| n]]; simpl; [by left | by left |].
        right. by split.
      * right. by rewrite Hfl.
Qed.

(** Through the header button alone a second refresh never starts. *)
Lemma header_single_flight (es : list event) :
  Forall fromHeader es → singleFlight (run positions es).
Proof.
  unfold run. assert (H0 : singleFlight init) by (by left).
  revert H0. generalize init as st.
  induction es as [| e es IH]; intros st Hst Hes; simpl; [done |].
  inversion Hes; subst. apply IH; [| done]. by apply singleFlight_step.
Qed.

(** C8.  The header button does nothing while the flag is raised, but the
    button of the floating navigation starts [syncAll] whatever the flag:
    each click on it adds a call in flight, and two clicks in a row leave
    two refreshes running at once. *)
Theorem nav_click_starts_second_refresh :
  (∀ calls, step positions (mk true calls) ClickHeader = mk true calls)
  ∧ (∀ st, length (inFlight (step positions st ClickNav))
           = S (length (inFlight st)))
  ∧ (let st := run positions [ClickNav; ClickNav] in
     isUpdating st = true
     ∧ inFlight st = [S positions; S positions])
  ∧ ¬ singleFlight (run positions [ClickNav; ClickNav]).
Proof.
  split; [done |]. split.
  - intros st. simpl. rewrite length_app. simpl. lia.
  - split; [done |]. by intros [H | [_ H]].
Qed.

End BusyFacts.

(* ================================================================== *)
(** ** Sums of ordinary numbers *)

Section Sums.

Local Open Scope Qc_scope.

Context {A : Type}.

Lemma fin_qval (n : number) : is_finite n = true → n = Fin (qval n).
Proof. by destruct n. Qed.

(** A [reduce] with [+] over ordinary numbers is their rational sum. *)
Lemma foldl_add_fin (f : A → number) (l : list A) (a : Qc) :
  (∀ x, x ∈ l → is_finite (f x) = true) →
  foldl (fun s x => add s (f x)) (Fin a) l
  = Fin (a + qsum (fun x => qval (f x)) l).
Proof.
  revert a. induction l as [| x l IH]; intros a H; simpl.
  - f_equal. symmetry. apply Qcplus_0_r.
  - rewrite (fin_qval (f x)) at 1 by (apply H; left).
    cbn [add]. rewrite IH by (intros y Hy; apply H; by right).
    f_equal. ring.
Qed.

Lemma qsum_ext (g h : A → Qc) (l : list A) :
  (∀ x, x ∈ l → g x = h x) → qsum g l = qsum h l.
Proof.
  induction l as [| x l IH]; intros H; simpl; [done |].
  rewrite (H x) by left. rewrite IH; [done |].
  intros y Hy. apply H. by right.
Qed.

End Sums.

(* ================================================================== *)
(** ** Conversion of ordinary numbers; the classes of a suggestion *)

Section TableFacts.

Local Open Scope Qc_scope.

Variable baseCurrency : BaseCurrency.
Variable hkdTwdRate : number.

Lemma toBase_is_finite (n : number) :
  finiteRate baseCurrency hkdTwdRate = true →
  is_finite n = true →
  is_finite (toBase baseCurrency hkdTwdRate n) = true.
Proof.
  intros Hr Hn. destruct n as [x | | |]; try done.
  by destruct (toBase_fin baseCurrency hkdTwdRate x Hr) as [y ->].
Qed.

End TableFacts.

Section PriceFacts.

Local Open Scope Qc_scope.




End PriceFacts.

(* ================================================================== *)
(** ** The footer percentage *)

Section TotalsFacts.

Local Open Scope Qc_scope.

Variable baseCurrency : BaseCurrency.
Variable hkdTwdRate : number.
Variable investments : list Investment.t.

Lemma qsum_zero {A : Type} (g : A → Qc) (l : list A) :
  (∀ x, x ∈ l → g x = 0) → qsum g l = 0.
Proof.
  induction l as [| x l IH]; intros H; simpl; [done |].
  rewrite (H x) by left. rewrite IH; [ring |].
  intros y Hy. apply H. by right.
Qed.

Lemma toBase_zero :
  finiteRate baseCurrency hkdTwdRate = true →
  toBase baseCurrency hkdTwdRate zero = zero.
Proof.
  unfold finiteRate, toBase. destruct baseCurrency; [done |].
  destruct hkdTwdRate as [r | | |]; try done. intros _.
  unfold mul, zero. f_equal. apply Qcmult_0_l.
Qed.

Lemma costHKD_no_basis (i : Investment.t) :
  boundedInvestment i = true → inv_buyPrice i = zero → costHKD i = zero.
Proof.
  intros Hi Hb. unfold costHKD. rewrite Hb.
  unfold boundedInvestment in Hi. rewrite !andb_true_iff in Hi.
  destruct Hi as [[[Hs _] _] Hr].
  destruct (or_default_fin _ (Q2Qc 0) Hs) as [s Es].
  destruct (or_default_fin _ (Q2Qc 1) Hr) as [r Er].
  unfold inv_shares, inv_rateToHkd. fold zero one in Es, Er. rewrite Es, Er.
  unfold mul, zero. f_equal. ring.
Qed.

(** X7.  When no position has a cost basis (and no input is an infinity)
    every row shows a profit percentage of [0], while the footer divides the
    profit total by [1] instead of the zero cost total: its percentage is
    the total invested times 100. *)
Theorem footer_pct_without_cost_basis :
  finiteRate baseCurrency hkdTwdRate = true →
  forallb boundedInvestment investments = true →
  (∀ i, i ∈ investments → inv_buyPrice i = zero) →
  (∀ d, d ∈ invDetails baseCurrency hkdTwdRate investments →
        profitPct d = zero)
  ∧ totalCostBase baseCurrency hkdTwdRate investments = zero
  ∧ totalProfitPct baseCurrency hkdTwdRate investments
    = mul (totalInvBase baseCurrency hkdTwdRate investments) hundred.
Proof.
  intros Hr Hl Hb.
  assert (Hrow : ∀ d, d ∈ invDetails baseCurrency hkdTwdRate investments →
            profitPct d = zero ∧ costBase d = zero
            ∧ profitBase d = valueBase d ∧ is_finite (valueBase d) = true).
  { intros d Hd. apply list_elem_of_fmap in Hd as (i & -> & Hi).
    assert (Hbi : boundedInvestment i = true).
    { rewrite forallb_forall in Hl. apply Hl. by apply list_elem_of_In. }
    pose proof (costHKD_no_basis i Hbi (Hb i Hi)) as Hc.
    cbn [invDetail profitPct costBase profitBase valueBase].
    unfold profitHKD. rewrite Hc, sub_zero_r, toBase_zero by done.
    repeat split; try done.
    destruct (valueHKD_fin i Hbi) as [v ->].
    by apply toBase_is_finite. }
  assert (Hcost : totalCostBase baseCurrency hkdTwdRate investments = zero).
  { unfold totalCostBase, zero. rewrite foldl_add_fin.
    - rewrite qsum_zero, Qcplus_0_l; [done |].
      intros d Hd. destruct (Hrow d Hd) as (_ & -> & _). done.
    - intros d Hd. destruct (Hrow d Hd) as (_ & -> & _). done. }
  split; [intros d Hd; by apply Hrow |]. split; [done |].
  unfold totalProfitPct. rewrite Hcost.
  change (or_default (Num zero) one) with one. rewrite div_one_r. f_equal.
  unfold totalProfitBase, totalInvBase, zero.
  rewrite !foldl_add_fin.
  - f_equal. f_equal. apply qsum_ext.
    intros d Hd. destruct (Hrow d Hd) as (_ & _ & -> & _). done.
  - intros d Hd. by apply Hrow.
  - intros d Hd. destruct (Hrow d Hd) as (_ & _ & -> & H). done.
Qed.

End TotalsFacts.

Lemma footer_pct_without_cost_basis_witness :
  let gift :=
    Investment.mk 3 "VOO" "S&P 500 ETF" "USD" (Num (int 512))
      (Num (frac 782 100)) (Num (int 10)) Null (Num (int 100)) None None in
  totalProfitPct HKD one [gift] = mul (totalInvBase HKD one [gift]) hundred.
Proof.
  intros gift.
  refine (proj2 (proj2 (footer_pct_without_cost_basis HKD one [gift]
                          eq_refl eq_refl _))).
  intros i Hi. apply list_elem_of_singleton in Hi. by subst i.
Defined.

(* ================================================================== *)
(** ** Source links and the rate of a refresh *)

Section DedupeFacts.

Local Abbreviation keep :=
  (fun (seen : list string) (x : string) =>
     if decide (x ∈ seen) then seen else seen ++ [x]).

Lemma keep_fold_NoDup (l seen : list string) :
  NoDup seen → NoDup (foldl keep seen l).
Proof.
  revert seen. induction l as [| x l IH]; intros seen H; simpl; [done |].
  apply IH. case_decide; [done |].
  apply NoDup_app. split; [done |]. split; [| apply NoDup_singleton].
  intros y Hy Hx. apply list_elem_of_singleton in Hx. by subst.
Qed.

Lemma keep_fold_elem (l seen : list string) (y : string) :
  y ∈ foldl keep seen l ↔ y ∈ seen ∨ y ∈ l.
Proof.
  revert seen. induction l as [| x l IH]; intros seen; simpl.
  - split; [by left | intros [H | H]; [done | by apply elem_of_nil in H]].
  - rewrite IH, elem_of_cons. case_decide as Hx.
    + split; [intros [H | H]; auto |].
      intros [H | [-> | H]]; auto.
    + rewrite elem_of_app, list_elem_of_singleton. tauto.
Qed.

Lemma keep_fold_id (l seen : list string) :
  NoDup (seen ++ l) → foldl keep seen l = seen ++ l.
Proof.
  revert seen. induction l as [| x l IH]; intros seen H; simpl.
  - by rewrite app_nil_r.
  - apply NoDup_app in H as (Hs & Hdisj & Hl).
    rewrite decide_False by (intros Hx; apply (Hdisj x Hx); by left).
    rewrite IH; [by rewrite <- app_assoc |].
    rewrite <- app_assoc. simpl. apply NoDup_app. by repeat split.
Qed.

(** X10.  [Array.from(new Set(l))]: the result has no repetition, holds
    exactly the links of [l], and is [l] itself when [l] has no repetition,
    so applying it twice changes nothing more. *)
Theorem dedupe_spec (l : list string) :
  NoDup (dedupe l)
  ∧ (∀ x, x ∈ dedupe l ↔ x ∈ l)
  ∧ (NoDup l → dedupe l = l)
  ∧ dedupe (dedupe l) = dedupe l.
Proof.
  assert (H1 : NoDup (dedupe l)) by (apply keep_fold_NoDup, NoDup_nil_2).
  assert (H3 : ∀ k, NoDup k → dedupe k = k).
  { intros k Hk. unfold dedupe. by rewrite keep_fold_id. }
  repeat split; [done | | | apply H3 | by apply H3].
  - intros H. apply keep_fold_elem in H as [H | H]; [| done].
    by apply elem_of_nil in H.
  - intros H. apply keep_fold_elem. by right.
Qed.

End DedupeFacts.

Lemma dedupe_spec_witness :
  dedupe ["a"; "b"; "c"]%string = ["a"; "b"; "c"]%string.
Proof.
  apply (proj1 (proj2 (proj2 (dedupe_spec ["a"; "b"; "c"]%string)))).
  apply (bool_decide_unpack _). vm_compute. reflexivity.
Defined.

Section RefreshSources.

Variable fetchRealtimePrice : nat → string → option PriceResult.t.
Variable fetchHkdTwdRate : number.
Variable now : nat → Z.

Local Abbreviation step := (syncStep fetchRealtimePrice now).
Local Abbreviation urls := (urlsAt fetchRealtimePrice).

Lemma syncStep_sources (s : list Investment.t * list string) (i : nat) :
  (step s i).2 = s.2 ++ urls s.1 i.
Proof.
  destruct s as [l srcs]. unfold syncStep, urlsAt. simpl.
  destruct (l !! i) as [old |]; simpl; [| by rewrite app_nil_r].
  destruct (fetchRealtimePrice i (Investment.symbol old)); simpl; [done |].
  by rewrite app_nil_r.
Qed.

(** A lookup reads the ticker, which no iteration changes. *)
Lemma urls_after_step (s : list Investment.t * list string) (i j : nat) :
  urls (step s i).1 j = urls s.1 j.
Proof.
  unfold urlsAt. rewrite syncStep_lookup. case_decide as Hij; [| done].
  subst j. destruct (s.1 !! i) as [old |]; simpl; [| done].
  assert (E : Investment.symbol (refreshOne fetchRealtimePrice now i old)
              = Investment.symbol old).
  { unfold refreshOne.
    by destruct (fetchRealtimePrice i (Investment.symbol old)). }
  by rewrite E.
Qed.

Lemma syncFold_sources (n a : nat) (s : list Investment.t * list string) :
  (foldl step s (seq a n)).2 = s.2 ++ concat (map (urls s.1) (seq a n)).
Proof.
  revert a s. induction n as [| n IH]; intros a s; simpl.
  - by rewrite app_nil_r.
  - rewrite IH, syncStep_sources, <- app_assoc.
    rewrite (map_ext (urls (step s a).1) (urls s.1)); [done |].
    intros j. apply urls_after_step.
Qed.

Lemma syncAll_sources (st : App.state) :
  App.sources (syncAll fetchRealtimePrice fetchHkdTwdRate now st)
  = dedupe (concat (map (urls (App.investments st))
                      (seq 0 (length (App.investments st))))).
Proof.
  unfold syncAll.
  pose proof (syncFold_sources (length (App.investments st)) 0
                (App.investments st, [])) as H.
  unfold syncLoop.
  destruct (foldl step (App.investments st, [])
              (seq 0 (length (App.investments st)))) as [l srcs].
  simpl in *. by rewrite H.
Qed.

(** X11.  After a batch refresh the list of source links has no
    repetition and holds exactly the links returned by the lookups that
    succeeded in this batch; the links shown before the refresh are
    dropped. *)
Theorem refresh_sources (st : App.state) :
  let st' := syncAll fetchRealtimePrice fetchHkdTwdRate now st in
  NoDup (App.sources st')
  ∧ ∀ x, x ∈ App.sources st' ↔
         ∃ i old res,
           App.investments st !! i = Some old
           ∧ fetchRealtimePrice i (Investment.symbol old) = Some res
           ∧ x ∈ PriceResult.sourceUrls res.
Proof.
  intros st'. subst st'. rewrite syncAll_sources.
  set (l := App.investments st).
  split; [apply keep_fold_NoDup, NoDup_nil_2 |].
  intros x. unfold dedupe. rewrite keep_fold_elem.
  split.
  - intros [H | H]; [by apply elem_of_nil in H |].
    apply list_elem_of_In, in_concat in H as (us & Hus & Hx).
    apply in_map_iff in Hus as (i & <- & _).
    unfold urlsAt in Hx.
    destruct (l !! i) as [old |] eqn:El; [| done].
    destruct (fetchRealtimePrice i (Investment.symbol old)) as [res |] eqn:Ef;
      [| done].
    exists i, old, res. split; [done |]. split; [done |].
    by apply list_elem_of_In.
  - intros (i & old & res & El & Ef & Hx). right.
    apply list_elem_of_In, in_concat. exists (urls l i). split.
    + apply in_map_iff. exists i. split; [done |].
      apply in_seq. apply lookup_lt_Some in El. simpl. lia.
    + unfold urlsAt. rewrite El, Ef. by apply list_elem_of_In.
Qed.

(** X12.  A batch in which every lookup fails leaves the list of positions
    as it was, empties the list of source links, stores the fetched rate
    and lowers the busy flag. *)
Theorem refresh_all_failed (st : App.state) :
  (∀ i old, App.investments st !! i = Some old →
            fetchRealtimePrice i (Investment.symbol old) = None) →
  syncAll fetchRealtimePrice fetchHkdTwdRate now st
  = {| App.investments := App.investments st;
       App.hkdTwdRate := fetchHkdTwdRate;
       App.isUpdating := false;
       App.sources := [] |}.
Proof.
  intros Hfail.
  assert (Hinv : (syncLoop fetchRealtimePrice now (App.investments st)).1
                 = App.investments st).
  { apply list_eq. intros j. rewrite syncLoop_lookup.
    destruct (App.investments st !! j) as [old |] eqn:E; [| done].
    simpl. unfold refreshOne. by rewrite (Hfail j old E). }
  pose proof (syncAll_sources st) as Hsrc.
  pose proof (syncAll_investments fetchRealtimePrice fetchHkdTwdRate now st)
    as Hl.
  rewrite Hinv in Hl.
  assert (Hnil : concat (map (urls (App.investments st))
                           (seq 0 (length (App.investments st)))) = []).
  { apply concat_nil_Forall, Forall_forall. intros us Hus.
    apply list_elem_of_In, in_map_iff in Hus as (i & <- & _).
    unfold urlsAt. destruct (App.investments st !! i) as [old |] eqn:E; [| done].
    by rewrite (Hfail i old E). }
  rewrite Hnil in Hsrc.
  unfold syncAll in *.
  destruct (syncLoop fetchRealtimePrice now (App.investments st)) as [l srcs].
  simpl in *. by rewrite Hl, Hsrc.
Qed.

End RefreshSources.

Lemma refresh_all_failed_witness :
  let st := App.mk seedInvestments (frac 415 100) true ["old-link"%string] in
  syncAll (fun _ _ => None) (frac 42 10) (fun _ => 0) st
  = App.mk seedInvestments (frac 42 10) false [].
Proof.
  intros st.
  exact (refresh_all_failed (fun _ _ => None) (frac 42 10) (fun _ => 0) st
           (fun _ _ _ => eq_refl)).
Defined.

Section FetchedRate.

Local Open Scope Qc_scope.

Lemma or_default_truthy (v : value) (d : number) :
  truthy d = true → truthy (or_default v d) = true.
Proof.
  intros Hd. destruct v as [| | n]; simpl; try done.
  by destruct (truthy n) eqn:E.
Qed.

(** X13.  The rate a refresh stores is never [0] or [NaN]: a failed lookup
    and an answer of [0], [NaN], [null] or nothing give 4.15, any other
    answer is stored as it is. *)
Theorem fetched_rate_is_usable (response : option value)
    (fetchRealtimePrice : nat → string → option PriceResult.t)
    (now : nat → Z) (st : App.state) :
  truthy (fetchedRate response) = true
  ∧ truthy (App.hkdTwdRate
              (syncAll fetchRealtimePrice (fetchedRate response) now st)) = true
  ∧ (match response with
     | Some (Num n) => truthy n = false
     | _ => True
     end → fetchedRate response = frac 415 100)
  ∧ (∀ n, response = Some (Num n) → truthy n = true →
          fetchedRate response = n).
Proof.
  assert (Ht : truthy (fetchedRate response) = true).
  { destruct response as [v |]; [| done]. by apply or_default_truthy. }
  split; [done |]. split; [| split].
  - unfold syncAll.
    by destruct (syncLoop fetchRealtimePrice now (App.investments st)).
  - destruct response as [[| | n] |]; simpl; try done. by intros ->.
  - intros n -> Hn. simpl. by rewrite Hn.
Qed.

End FetchedRate.

Lemma fetched_rate_is_usable_witness :
  fetchedRate (Some (Num zero)) = frac 415 100
  ∧ fetchedRate (Some (Num (frac 42 10))) = frac 42 10.
Proof.
  pose proof (fetched_rate_is_usable (Some (Num zero)) (fun _ _ => None)
                (fun _ => 0) (App.mk [] one false [])) as (_ & _ & H0 & _).
  pose proof (fetched_rate_is_usable (Some (Num (frac 42 10))) (fun _ _ => None)
                (fun _ => 0) (App.mk [] one false [])) as (_ & _ & _ & H1).
  split; [exact (H0 eq_refl) | exact (H1 (frac 42 10) eq_refl eq_refl)].
Defined.

(* ================================================================== *)
(** ** The relative time *)

(** X14.  [getRelativeTime] answers "not yet updated" for a missing or zero
    timestamp; otherwise "just now" for anything less than a minute old,
    timestamps in the future included, a count of whole minutes between 1
    and 59 for anything less than an hour old, and the clock time from one
    hour on. *)
Theorem relative_time_ranges (now : Z) :
  getRelativeTime now None = NeverUpdated
  ∧ getRelativeTime now (Some 0) = NeverUpdated
  ∧ (∀ t, t ≠ 0 → now - t < 60000 →
          getRelativeTime now (Some t) = JustNow)
  ∧ (∀ t, t ≠ 0 → 60000 <= now - t < 3600000 →
          getRelativeTime now (Some t) = MinutesAgo ((now - t) / 60000)
          ∧ 1 <= (now - t) / 60000 <= 59)
  ∧ (∀ t, t ≠ 0 → 3600000 <= now - t →
          getRelativeTime now (Some t) = ClockTime t).
Proof.
  split; [done |]. split; [done |].
  unfold getRelativeTime.
  split; [| split]; intros t Ht Hd;
    rewrite (proj2 (Z.eqb_neq t 0) Ht); cbv zeta.
  - rewrite (proj2 (Z.ltb_lt _ _)); [done |].
    apply Z.div_lt_upper_bound; lia.
  - assert (1 <= (now - t) / 60000 <= 59).
    { split.
      - apply Z.div_le_lower_bound; lia.
      - assert ((now - t) / 60000 < 60); [| lia].
        apply Z.div_lt_upper_bound; lia. }
    rewrite (proj2 (Z.ltb_ge _ _)) by lia.
    by rewrite (proj2 (Z.ltb_lt _ _)) by lia.
  - assert (60 <= (now - t) / 60000) by (apply Z.div_le_lower_bound; lia).
    rewrite (proj2 (Z.ltb_ge _ _)) by lia.
    by rewrite (proj2 (Z.ltb_ge _ _)) by lia.
Qed.

Lemma relative_time_ranges_witness :
  getRelativeTime 1700000300000 (Some 1700000000000) = MinutesAgo 5
  ∧ getRelativeTime 1700000000000 (Some 1700000300000) = JustNow.
Proof.
  pose proof (relative_time_ranges 1700000300000) as (_ & _ & _ & Hm & _).
  pose proof (relative_time_ranges 1700000000000) as (_ & _ & Hj & _).
  split.
  - apply (Hm 1700000000000); lia.
  - apply (Hj 1700000300000); lia.
Defined.

(* ================================================================== *)
(** ** More on the busy flag *)

Section BusyRuns.

Import Busy.

Variable positions : nat.

(** The first call in flight passes its remaining [await]s and ends. *)
Lemma resume_to_end (n : nat) (u : bool) (rest : list nat) :
  foldl (step positions) {| isUpdating := u; inFlight := S n :: rest |}
    (repeat (Resume 0) (S n))
  = {| isUpdating := false; inFlight := rest |}.
Proof.
  revert u. induction n as [| n IH]; intros u; [done |].
  change (repeat (Resume 0) (S (S n)))
    with (Resume 0 :: repeat (Resume 0) (S n)).
  cbn [foldl]. exact (IH u).
Qed.

(** X16.  A refresh started while idle ends after the rate and one price
    per position have been awaited, and leaves the component idle again;
    but when two refreshes were started from the navigation button, the
    end of the first lowers the flag while the second is still in
    flight. *)
Theorem refresh_runs_to_completion :
  run positions (ClickHeader :: repeat (Resume 0) (S positions)) = init
  ∧ run positions (ClickNav :: ClickNav :: repeat (Resume 0) (S positions))
    = {| isUpdating := false; inFlight := [S positions] |}.
Proof.
  unfold run. split.
  - change (foldl (step positions) init
              (ClickHeader :: repeat (Resume 0) (S positions)))
      with (foldl (step positions)
              {| isUpdating := true; inFlight := [S positions] |}
              (repeat (Resume 0) (S positions))).
    apply resume_to_end.
  - change (foldl (step positions) init
              (ClickNav :: ClickNav :: repeat (Resume 0) (S positions)))
      with (foldl (step positions)
              {| isUpdating := true; inFlight := [S positions; S positions] |}
              (repeat (Resume 0) (S positions))).
    apply resume_to_end.
Qed.

End BusyRuns.

(* ================================================================== *)
(** ** Creating, editing and deleting *)

Section SaveFacts.

Variable A D : Type.
Variable getId : A → Z.
Variable merge : A → D → A.
Variable create : D → Z → A.

(** The objects the forms submit carry no [id]. *)
Hypothesis merge_id : ∀ i d, getId (merge i d) = getId i.
Hypothesis create_id : ∀ d n, getId (create d n) = n.

(** X17.  Saving an edit keeps the number, the order and the identifiers of
    the records; it replaces every record carrying the edited identifier by
    its merge with the submitted object and no other record, and changes
    nothing when no record carries that identifier. *)
Theorem edit_replaces_in_place (eid : Z) (data : D) (now : Z)
    (prev : list A) :
  length (saveItem A D getId merge create (Some eid) data now prev)
  = length prev
  ∧ map getId (saveItem A D getId merge create (Some eid) data now prev)
    = map getId prev
  ∧ (∀ k i, prev !! k = Some i →
            saveItem A D getId merge create (Some eid) data now prev !! k
            = Some (if getId i =? eid then merge i data else i))
  ∧ (eid ∉ map getId prev →
     saveItem A D getId merge create (Some eid) data now prev = prev).
Proof.
  unfold saveItem. split; [by rewrite length_map |]. split; [| split].
  - rewrite map_map. apply map_ext. intros i.
    by destruct (getId i =? eid).
  - intros k i Hk. by rewrite list_lookup_fmap, Hk.
  - intros Hnot. induction prev as [| i l IH]; simpl; [done |].
    rewrite IH by (intros H; apply Hnot; simpl; apply elem_of_cons; by right).
    destruct (getId i =? eid) eqn:E; [| done].
    apply Z.eqb_eq in E. exfalso. apply Hnot. simpl. apply elem_of_cons. by left.
Qed.

(** X18.  Deleting by identifier removes every record carrying it and
    keeps the others in their order; it changes nothing when no record
    carries the identifier.  A record added at a clock value that is not yet
    an identifier goes last with that identifier, keeps the identifiers
    distinct, and deleting it gives the former list back. *)
Theorem delete_and_add (x : Z) (data : D) (now : Z) (prev : list A) :
  (x ∉ map getId (deleteItem A getId x prev))
  ∧ (∀ i, i ∈ deleteItem A getId x prev ↔ i ∈ prev ∧ getId i ≠ x)
  ∧ deleteItem A getId x prev `sublist_of` prev
  ∧ (x ∉ map getId prev → deleteItem A getId x prev = prev)
  ∧ map getId (saveItem A D getId merge create None data now prev) = map getId prev ++ [now]
  ∧ (now ∉ map getId prev →
     (NoDup (map getId prev) →
      NoDup (map getId (saveItem A D getId merge create None data now prev)))
     ∧ deleteItem A getId now (saveItem A D getId merge create None data now prev) = prev).
Proof.
  assert (Hid : ∀ l, x ∉ map getId l → deleteItem A getId x l = l).
  { intros l Hnot. unfold deleteItem. induction l as [| i l IH]; [done |].
    rewrite filter_cons.
    rewrite decide_True by (intros E; apply Hnot; simpl; apply elem_of_cons; by left).
    f_equal. apply IH. intros H. apply Hnot. simpl. apply elem_of_cons. by right. }
  split; [| split; [| split; [| split; [| split]]]].
  - unfold deleteItem. intros H.
    apply list_elem_of_fmap in H as (i & Hi & Hin).
    apply list_elem_of_filter in Hin as [Hne _]. congruence.
  - intros i. unfold deleteItem. rewrite list_elem_of_filter. tauto.
  - apply sublist_filter.
  - apply Hid.
  - unfold saveItem. by rewrite map_app; simpl; rewrite create_id.
  - intros Hfresh. split.
    + intros Hnd. unfold saveItem. rewrite map_app. simpl. rewrite create_id.
      apply NoDup_app. split; [done |]. split; [| apply NoDup_singleton].
      intros y Hy Hy'. apply list_elem_of_singleton in Hy'. by subst.
    + unfold saveItem, deleteItem. rewrite filter_app.
      assert (E : filter (fun i => getId i ≠ now) prev = prev).
      { clear -Hfresh. induction prev as [| i l IH]; [done |].
        rewrite filter_cons.
        rewrite decide_True by (intros E; apply Hfresh; simpl; apply elem_of_cons; by left).
        f_equal. apply IH. intros H. apply Hfresh. simpl. apply elem_of_cons. by right. }
      rewrite E. rewrite filter_cons, filter_nil.
      rewrite decide_False by (rewrite create_id; tauto).
      by rewrite app_nil_r.
Qed.

End SaveFacts.

Lemma edit_replaces_in_place_witness :
  let data :=
    investmentFormData "VOO" (frac 782 100) (int 12) (int 480) (int 60)
      None (Some voo) 1700000000000 in
  map Investment.id
    (saveItem _ _ Investment.id mergeInvestment createInvestment
       (Some 1) data 1700000000000 seedInvestments)
  = map Investment.id seedInvestments.
Proof.
  intros data.
  exact (proj1 (proj2
    (edit_replaces_in_place _ _ Investment.id mergeInvestment createInvestment
       (fun _ _ => eq_refl) 1 data 1700000000000 seedInvestments))).
Defined.

Lemma delete_and_add_witness :
  let data :=
    investmentFormData "QQQ" (frac 782 100) (int 3) (int 400) (int 10)
      None None 1700000000000 in
  deleteItem _ Investment.id 1700000000000
    (saveItem _ _ Investment.id mergeInvestment createInvestment
       None data 1700000000000 seedInvestments)
  = seedInvestments.
Proof.
  intros data.
  refine (proj2 (proj2 (proj2 (proj2 (proj2 (proj2
    (delete_and_add _ _ Investment.id mergeInvestment createInvestment
       (fun _ _ => eq_refl) 0 data 1700000000000 seedInvestments)))))
    _)).
  vm_compute. intros H. repeat (apply elem_of_cons in H as [H | H]; [done |]).
  by apply elem_of_nil in H.
Defined.

(* ================================================================== *)
(** ** What the forms store *)

Section FormFacts.

Lemma stored_number_present (n d : number) :
  d = zero ∨ truthy d = true →
  missing (Num (or_default (Num n) d)) = false.
Proof.
  intros Hd. cbn [or_default]. destruct (truthy n) eqn:E.
  - by destruct n.
  - destruct Hd as [-> | Hd]; [done |]. by destruct d.
Qed.





(** X20.  The account form never creates an auto-derived account and never
    changes whether the edited account is auto-derived; it stores [null] as
    the balance exactly for an auto-derived account, ignoring what was
    typed, a number other than [NaN] otherwise, and a rate that is neither
    [0] nor [NaN]. *)
Theorem form_account_keeps_auto_flag (name currency : string)
    (amount rate : number) (id : Z) :
  AssetAccount.isAuto
    (createAccount (accountFormData name currency amount rate None) id)
  = false
  ∧ (∀ a, AssetAccount.isAuto
            (mergeAccount a (accountFormData name currency amount rate (Some a)))
          = AssetAccount.isAuto a)
  ∧ (∀ editingItem,
       let d := accountFormData name currency amount rate editingItem in
       (AccountData.amount d = Null ↔ editingAuto editingItem = true)
       ∧ (editingAuto editingItem = false →
          missing (AccountData.amount d) = false)
       ∧ ∃ n, AccountData.exchangeRate d = Num n ∧ truthy n = true).
Proof.
  split; [done |]. split.
  - intros a. unfold AssetAccount.isAuto at 1. simpl.
    by destruct (AssetAccount.isAuto a).
  - intros editingItem d. subst d. unfold accountFormData.
    cbn -[or_default]. split; [| split].
    + destruct (editingAuto editingItem); split; done.
    + intros ->. apply stored_number_present. by left.
    + eexists. split; [done |]. by apply or_default_truthy.
Qed.

End FormFacts.


Lemma form_account_keeps_auto_flag_witness :
  missing (AccountData.amount
             (accountFormData "Cash" "HKD" NaN (int 1) (Some cash))) = false.
Proof.
  exact (proj1 (proj2 (proj2 (proj2
    (form_account_keeps_auto_flag "Cash" "HKD" NaN (int 1) 0)) (Some cash)))
    eq_refl).
Defined.

(* ================================================================== *)
(** ** A refresh seen from the valuation *)

Section RefreshValuation.

Variable fetchRealtimePrice : nat → string → option PriceResult.t.
Variable fetchHkdTwdRate : number.
Variable now : nat → Z.

(** X21.  A batch refresh never changes the anchor cost of a position;
    the anchor value of a position whose lookup succeeded is its old share
    count times the fetched price times its old rate, and the anchor value
    of a position whose lookup failed is unchanged. *)
Theorem refresh_keeps_cost (st : App.state) (i : nat) (old : Investment.t) :
  App.investments st !! i = Some old →
  ∃ new,
    App.investments (syncAll fetchRealtimePrice fetchHkdTwdRate now st) !! i
    = Some new
    ∧ costHKD new = costHKD old
    ∧ (fetchRealtimePrice i (Investment.symbol old) = None →
       valueHKD new = valueHKD old)
    ∧ (∀ res, fetchRealtimePrice i (Investment.symbol old) = Some res →
              valueHKD new
              = mul (mul (inv_shares old)
                       (or_default (PriceResult.price res) zero))
                  (inv_rateToHkd old)).
Proof.
  intros Hold. exists (refreshOne fetchRealtimePrice now i old).
  rewrite syncAll_investments, syncLoop_lookup, Hold. split; [done |].
  unfold refreshOne.
  destruct (fetchRealtimePrice i (Investment.symbol old)) as [res |].
  - split; [done |]. split; [done |]. by intros ? [= <-].
  - by repeat split.
Qed.

End RefreshValuation.

Lemma refresh_keeps_cost_witness :
  let st := App.mk seedInvestments (frac 415 100) true [] in
  ∃ new,
    App.investments
      (syncAll firstLookupFails (frac 42 10) (fun _ => 1700000000000) st)
      !! 1%nat = Some new
    ∧ costHKD new = costHKD tracker.
Proof.
  intros st.
  destruct (refresh_keeps_cost firstLookupFails (frac 42 10)
              (fun _ => 1700000000000) st 1 tracker eq_refl)
    as (new & Hnew & Hcost & _).
  exists new. split; [exact Hnew | exact Hcost].
Defined.


(* ================================================================== *)
(** ** Figures in binary64 *)

#[local] Set Warnings "-inexact-float".

Section Binary64Facts.

Import Binary64.
Local Open Scope float_scope.

(** C1.  For every position, with the four inputs coerced by the [||]
    defaults, the valuation computes in binary64 [valueBase = toBase
    (shareCount * currentPrice * fxToAnchor)], [costBase = toBase (shareCount
    * costBasisPrice * fxToAnchor)], [profitBase = toBase (value - cost)]
    and [profitPct = (profit / cost) * 100] when the anchor cost is greater
    than zero and [0] otherwise.  For 10 shares at 512, bought at 480, rate
    7.82 and the base currency equal to the anchor this gives 40038.4,
    37536, 2502.4000000000015 and 6.6666666666666705: the profit is 2502.4
    and the percentage (2502.4 / 37536) * 100 up to rounding only. *)
Theorem valuation_binary64 (baseCurrency : BaseCurrency) (hkdTwdRate : number)
    (i : Investment.t) :
  let shareCount := or_default (Investment.overrideShares i) 0 in
  let currentPrice := or_default (Investment.currentPrice i) 0 in
  let costBasisPrice := or_default (Investment.initialPurchasePrice i) 0 in
  let fxToAnchor := or_default (Investment.exchangeRate i) 1 in
  let valueInAnchor := mul (mul shareCount currentPrice) fxToAnchor in
  let costInAnchor := mul (mul shareCount costBasisPrice) fxToAnchor in
  let profitInAnchor := sub valueInAnchor costInAnchor in
  let d := invDetail baseCurrency hkdTwdRate i in
  (valueBase d = toBase baseCurrency hkdTwdRate valueInAnchor
   ∧ costBase d = toBase baseCurrency hkdTwdRate costInAnchor
   ∧ profitBase d = toBase baseCurrency hkdTwdRate profitInAnchor
   ∧ profitPct d =
       (if gt costInAnchor 0
        then mul (div profitInAnchor costInAnchor) 100
        else 0))
  ∧ (Investment.overrideShares i = Num 10 →
     Investment.currentPrice i = Num 512 →
     Investment.exchangeRate i = Num 7.82 →
     Investment.initialPurchasePrice i = Num 480 →
     baseCurrency = HKD →
     valueBase d = 40038.4
     ∧ costBase d = 37536
     ∧ profitBase d = 2502.4000000000015
     ∧ profitPct d = 6.6666666666666705
     ∧ within 1e-11 (profitBase d) 2502.4 = true
     ∧ within 1e-13 (profitPct d) (mul (div 2502.4 37536) 100) = true).
Proof.
  split; [by repeat split |].
  destruct i; simpl. intros -> -> -> -> ->.
  repeat split; vm_compute; reflexivity.
Qed.

Lemma valuation_binary64_witness :
  let d := invDetail HKD 4.15 voo in
  valueBase d = 40038.4
  ∧ costBase d = 37536
  ∧ profitBase d = 2502.4000000000015
  ∧ profitPct d = 6.6666666666666705
  ∧ within 1e-11 (profitBase d) 2502.4 = true
  ∧ within 1e-13 (profitPct d) (mul (div 2502.4 37536) 100) = true.
Proof.
  exact (proj2 (valuation_binary64 HKD 4.15 voo)
           eq_refl eq_refl eq_refl eq_refl eq_refl).
Defined.

(** In the scenario of C1 the profit is not the binary64 number 2502.4 and
    the percentage is not the binary64 value of (2502.4 / 37536) * 100. *)
Lemma scenario_profit_is_rounded :
  let d := invDetail HKD 4.15 voo in
  profitBase d ≠ 2502.4
  ∧ profitPct d ≠ mul (div 2502.4 37536) 100.
Proof.
  split; intros H.
  - pose proof (f_equal (fun z => PrimFloat.eqb z 2502.4) H) as E.
    vm_compute in E. discriminate E.
  - pose proof (f_equal
      (fun z => PrimFloat.eqb z (mul (div 2502.4 37536) 100)) H) as E.
    vm_compute in E. discriminate E.
Qed.






End Binary64Facts.

(* ================================================================== *)
(** ** The busy flag with all its writers *)

Section FlagFacts.

Import Flag.

Variable positions : nat.

Lemma oneHolder_step (st : state) (e : event) :
  oneHolder st → guarded e → oneHolder (step positions st e).
Proof.
  intros Hst He.
  destruct e as [| | k | |]; [| done | | |]; simpl.
  - destruct Hst as [(Hu & Hfl & Hl) | [(Hu & Hfl & Hl) | (Hu & Hfl & Hl)]];
      rewrite Hu.
    + right. left. unfold startSync. simpl. rewrite Hfl. eauto.
    + right. by left.
    + right. by right.
  - unfold resume.
    destruct Hst as [(Hu & Hfl & Hl) | [(Hu & [n Hfl] & Hl) | (Hu & Hfl & Hl)]];
      rewrite Hfl.
    + simpl. left. by rewrite Hfl.
    + destruct k as [| k]; simpl.
      * destruct n as [| n]; simpl; [by left |]. right. left. eauto.
      * right. left. rewrite Hfl. eauto.
    + simpl. right. right. by rewrite Hfl.
  - destruct Hst as [(Hu & Hfl & Hl) | [(Hu & Hfl & Hl) | (Hu & Hfl & Hl)]];
      rewrite Hu.
    + right. right. unfold submit. simpl. by rewrite Hl.
    + right. by left.
    + right. by right.
  - unfold resolve.
    destruct Hst as [(Hu & Hfl & Hl) | [(Hu & Hfl & Hl) | (Hu & Hfl & Hl)]];
      rewrite Hl.
    + left. by rewrite Hl.
    + right. left. by rewrite Hl.
    + left. done.
Qed.

(** X15.  As long as the navigation button is not used, the busy flag is
    raised exactly while a refresh or the price lookup of a submitted
    position form is pending, and at most one of these is pending at any
    time: no refresh starts during a form lookup or another refresh, and no
    form is submitted during a refresh. *)
Theorem flag_has_one_holder (es : list event) :
  Forall guarded es →
  let st := run positions es in
  (isUpdating st = true ↔ inFlight st ≠ [] ∨ lookups st ≠ O)
  ∧ (length (inFlight st) + lookups st <= 1)%nat.
Proof.
  intros Hes st.
  assert (H : oneHolder st).
  { subst st. unfold run.
    assert (H0 : oneHolder init) by (by left).
    revert H0. generalize init as s0.
    induction es as [| e l IH]; intros s0 H0; simpl; [done |].
    inversion Hes; subst. apply IH; [done |]. by apply oneHolder_step. }
  destruct H as [(Hu & Hfl & Hl) | [(Hu & [n Hfl] & Hl) | (Hu & Hfl & Hl)]];
    rewrite Hu, Hfl, Hl; simpl.
  - split; [| lia]. split; [done |]. by intros [? | ?].
  - split; [| lia]. split; [| done]. intros _. by left.
  - split; [| lia]. split; [| done]. intros _. by right.
Qed.

End FlagFacts.

Lemma flag_has_one_holder_witness :
  let st :=
    Flag.run 2 [Flag.Submit; Flag.ClickHeader; Flag.Resolve; Flag.ClickHeader;
                Flag.Submit] in
  (Flag.isUpdating st = true ↔ Flag.inFlight st ≠ [] ∨ Flag.lookups st ≠ O)
  ∧ (length (Flag.inFlight st) + Flag.lookups st <= 1)%nat.
Proof.
  apply (flag_has_one_holder 2).
  repeat constructor; discriminate.
Defined.
